(** * The WhatsApp gateway of [wha_api/index.js]

    A shallow embedding of the Socket.IO request handlers ([send_message],
    [send_pdf], [check_status]) and of the Baileys event handlers
    ([connection.update], [messages.upsert]) of [src/wha_api/index.js],
    followed by the properties the specification states about them.

    Conventions of the embedding:
    - JavaScript data is a [value]; objects are association lists in
      insertion order (the first binding of a name is the live one), because
      [Object.keys(...)[0]] depends on that order;
    - numbers are the integers ([Z]) and the two infinities: status codes
      and timestamps are the only numbers the handlers compute with, and the
      one product the code takes is rounded as a double;
    - a handler is a computation in [M]: the list of the effects it performs,
      in program order, and how it ends (normally or with a thrown value);
      [console.log] and [console.error] are not recorded, they neither throw
      nor feed any later decision. *)

From Stdlib Require Import String Ascii List ZArith NArith Bool Lia.
Import ListNotations.
Local Open Scope string_scope.
Local Set Warnings "-register-all".

(** ** JavaScript values *)

Inductive value : Type :=
| VUndefined
| VNull
| VBool (b : bool)
| VNum (n : Z)
| VStr (s : string)
| VObj (fields : list (string * value))
| VInfinity (negative : bool).

(** [ToBoolean]: what [if (v)], [!v], [a || b] and [a ? b : c] test. *)
Definition truthy (v : value) : bool :=
  match v with
  | VUndefined | VNull => false
  | VBool b => b
  | VNum n => negb (n =? 0)%Z
  | VStr s => negb (s =? EmptyString)
  | VObj _ => true
  | VInfinity _ => true
  end.

(** [a || b] *)
Definition js_or (a b : value) : value := if truthy a then a else b.

Definition nullish (v : value) : bool :=
  match v with
  | VUndefined | VNull => true
  | _ => false
  end.

Fixpoint lookup (k : string) (fs : list (string * value)) : value :=
  match fs with
  | [] => VUndefined
  | (k', v) :: fs' => if k' =? k then v else lookup k fs'
  end.

(** [v?.k]: [undefined] on a nullish base; on a primitive the names the
    handlers read ([number], [message], [key], [error], ...) are not
    properties of the wrapper prototypes, so the read gives [undefined]. *)
Definition opt_get (v : value) (k : string) : value :=
  match v with
  | VObj fs => lookup k fs
  | _ => VUndefined
  end.

(** [v === 'lit'] and [v !== n] against a string or number literal. *)
Definition strict_eq_str (v : value) (lit : string) : bool :=
  match v with
  | VStr s => s =? lit
  | _ => false
  end.

Definition strict_eq_num (v : value) (n : Z) : bool :=
  match v with
  | VNum m => (m =? n)%Z
  | _ => false
  end.

(** ** Strings *)

Definition is_digit (c : ascii) : bool :=
  let n := nat_of_ascii c in (48 <=? n)%nat && (n <=? 57)%nat.

(** [s.replace(/[^\d]/g, '')]: every character that is not a decimal digit
    is dropped.  Strings are UTF-8 here; every byte of a multi-byte
    character is above 127, so dropping bytes drops whole characters. *)
Fixpoint strip_non_digits (s : string) : string :=
  match s with
  | EmptyString => EmptyString
  | String c s' =>
      if is_digit c then String c (strip_non_digits s') else strip_non_digits s'
  end.

(** [s.split('@')[0]]: the part of [s] before its first ['@']. *)
Fixpoint before_at (s : string) : string :=
  match s with
  | EmptyString => EmptyString
  | String c s' => if (c =? "@")%char then EmptyString else String c (before_at s')
  end.

(** The number a string of decimal digits denotes, after [acc]. *)
Fixpoint decimal_value (acc : N) (s : string) : option N :=
  match s with
  | EmptyString => Some acc
  | String c s' =>
      if is_digit c
      then decimal_value (acc * 10 + N.of_nat (nat_of_ascii c - 48)) s'
      else None
  end.

(** A property name that is an array index: the canonical numeral (no
    leading zero) of an integer from 0 to 2^32 - 2.  [Object.keys] lists
    these names first, in ascending order. *)
Definition array_index (k : string) : option N :=
  match k with
  | EmptyString => None
  | String c rest =>
      if (c =? "0")%char && negb (rest =? EmptyString) then None
      else match decimal_value 0 k with
           | Some n => if (n <=? 4294967294)%N then Some n else None
           | None => None
           end
  end.

(** ** Numbers *)

(** The result of a numeric operation. *)
Inductive number : Type :=
| NaN
| Finite (n : Z)
| Infinite (negative : bool).

(** The double nearest to an integer, ties to the even significand: exact
    below 2^53 in magnitude, a multiple of a power of two with a 53-bit
    significand above, and infinite when the rounded magnitude reaches
    2^1024.  It is the value of a numeral and of a product. *)
Definition double_of (p : Z) : number :=
  let m := Z.abs p in
  if (m <? 2 ^ 53)%Z then Finite p else
  let unit := (2 ^ (Z.log2 m - 52))%Z in
  let q := (m / unit)%Z in
  let r := (m mod unit)%Z in
  let half := (unit / 2)%Z in
  let q' := if ((half <? r) || ((r =? half) && Z.odd q))%Z then (q + 1)%Z else q in
  if (2 ^ 1024 <=? q' * unit)%Z then Infinite (p <? 0)%Z
  else Finite (Z.sgn p * (q' * unit))%Z.

(** [x * 1000] *)
Definition times_1000 (x : number) : number :=
  match x with
  | NaN => NaN
  | Finite n => double_of (n * 1000)
  | Infinite negative => Infinite negative
  end.

(** ** Effects and the handler monad *)

(** [socket.id] of a Socket.IO client. *)
Definition client := string.

Inductive effect : Type :=
| Callback (to : client) (reply : value)        (* callback(reply) of that client's request *)
| EmitTo (to : client) (ev : string)            (* socket.emit(ev) *)
| Broadcast (ev : string) (payload : value)     (* io.emit(ev, payload) *)
| SendMessage (sock : nat) (jid : string) (content : value)
                                                (* globalSocket.sendMessage(jid, content) *)
| ConnectToWhatsApp.                            (* connectToWhatsApp() *)

(** A computation performs effects and then returns or throws. *)
Definition M (A : Type) : Type := (list effect * (A + value))%type.

Definition ret {A} (a : A) : M A := ([], inl a).
Definition throw {A} (e : value) : M A := ([], inr e).
Definition perform (e : effect) : M unit := ([e], inl tt).

Definition bind {A B} (m : M A) (k : A -> M B) : M B :=
  match m with
  | (t, inl a) => let (t', r) := k a in ((t ++ t')%list, r)
  | (t, inr e) => (t, inr e)
  end.

(** [try { body } catch (error) { handler }] *)
Definition try_catch {A} (body : M A) (handler : value -> M A) : M A :=
  match body with
  | (t, inl a) => (t, inl a)
  | (t, inr e) => let (t', r) := handler e in ((t ++ t')%list, r)
  end.

Notation "x <- m ;; k" := (bind m (fun x => k))
  (at level 61, m at next level, right associativity).
Notation "m ;;; k" := (bind m (fun _ => k))
  (at level 61, right associativity).

Definition trace {A} (m : M A) : list effect := fst m.
Definition outcome {A} (m : M A) : A + value := snd m.

(** The [TypeError] the runtime raises; the texts are V8's. *)
Definition type_error (msg : string) : value :=
  VObj [("name", VStr "TypeError"); ("message", VStr msg)].

(** [new Error(msg)] *)
Definition new_error (msg : string) : value :=
  VObj [("name", VStr "Error"); ("message", VStr msg)].

(** How V8 names a nullish value in its messages. *)
Definition nullish_name (v : value) : string :=
  match v with
  | VNull => "null"
  | _ => "undefined"
  end.

Definition cannot_read (v : value) (k : string) : value :=
  type_error ("Cannot read properties of " ++ nullish_name v ++ " (reading '" ++ k ++ "')").

(** [v.k]: a [TypeError] on [undefined] and [null]. *)
Definition get_prop (v : value) (k : string) : M value :=
  if nullish v then throw (cannot_read v k) else ret (opt_get v k).

(** [const { k, ... } = v], with [source] the text of the right-hand side:
    a [TypeError] on [undefined] and [null], which names the first
    property. *)
Definition destructure (source : string) (v : value) (k : string) : M value :=
  if nullish v
  then throw (type_error ("Cannot destructure property '" ++ k ++ "' of '" ++ source
                          ++ "' as it is " ++ nullish_name v ++ "."))
  else ret (opt_get v k).

(** [number.replace(/[^\d]/g, '')]: only strings have [replace]. *)
Definition replace_non_digits (number : value) : M string :=
  match number with
  | VStr s => ret (strip_non_digits s)
  | VUndefined | VNull => throw (cannot_read number "replace")
  | _ => throw (type_error "number.replace is not a function")
  end.

(** ** The Socket.IO request handlers *)

(** How the promise returned by [globalSocket.sendMessage] behaves, in
    milliseconds after the call. *)
Inductive settlement : Type :=
| Fulfils (at_ms : N)
| Rejects (at_ms : N) (reason : value)
| Pending.                       (* it never settles *)

(** The delay of the [setTimeout] that [Promise.race] is armed with. *)
Definition send_deadline : N := 25000.

(** [await Promise.race([operation, new Promise((_, reject) =>
    setTimeout(() => reject(new Error(timeout_msg)), 25000))])]:
    whichever settles first decides; when both are due in the same
    millisecond the event loop decides, which [timer_first] records. *)
Definition await_race (net : settlement) (timer_first : bool) (timeout_msg : string)
  : M unit :=
  let beats_timer t :=
    ((t <? send_deadline) || ((t =? send_deadline) && negb timer_first))%N in
  match net with
  | Fulfils t => if beats_timer t then ret tt else throw (new_error timeout_msg)
  | Rejects t reason => if beats_timer t then throw reason else throw (new_error timeout_msg)
  | Pending => throw (new_error timeout_msg)
  end.

Definition reply_ok (msg : string) : value :=
  VObj [("success", VBool true); ("message", VStr msg)].

Definition reply_error (err : value) : value :=
  VObj [("success", VBool false); ("error", err)].

(** [callback({ success: false, error: error.message || fallback })] *)
Definition answer_error (socket : client) (error : value) (fallback : string) : M unit :=
  msg <- get_prop error "message" ;;
  perform (Callback socket (reply_error (js_or msg (VStr fallback)))).

Definition not_connected_msg : string := "WhatsApp no está conectado".
Definition pdf_missing_msg : string := "El archivo PDF no existe".
Definition message_timeout_msg : string := "Timeout al enviar mensaje".
Definition pdf_timeout_msg : string := "Timeout al enviar PDF".
Definition jid_suffix : string := "@s.whatsapp.net".

(** [socket.on('send_message', async (data, callback) => ...)], lines 58-98.
    [globalSocket] is the module variable as the handler reads it on entry:
    [None] for [null], [Some sock] for the socket object. *)
Definition send_message (globalSocket : option nat) (socket : client) (data : value)
    (net : settlement) (timer_first : bool) : M unit :=
  try_catch
    (match globalSocket with
     | None =>
         perform (Callback socket (reply_error (VStr not_connected_msg)))
     | Some sock =>
         number <- destructure "data" data "number" ;;
         message <- destructure "data" data "message" ;;
         digits <- replace_non_digits number ;;
         let formattedNumber := digits ++ jid_suffix in
         perform (EmitTo socket "keep_alive") ;;;
         try_catch
           (perform (SendMessage sock formattedNumber (VObj [("text", message)])) ;;;
            await_race net timer_first message_timeout_msg ;;;
            perform (EmitTo socket "keep_alive") ;;;
            perform (Callback socket (reply_ok "Mensaje enviado correctamente")))
           (fun error => answer_error socket error "Error al enviar mensaje")
     end)
    (fun error => answer_error socket error "Error general al procesar el mensaje").

(** [socket.on('check_status', (callback) => ...)], lines 101-107. *)
Definition check_status (globalSocket : option nat) (socket : client) : M unit :=
  perform (Callback socket
    (VObj [("connected", VBool (match globalSocket with Some _ => true | None => false end));
           ("status", VStr (match globalSocket with
                            | Some _ => "connected"
                            | None => "disconnected"
                            end))])).

(** [path.join(__dirname, 'menu_go_papa.pdf')], with [__dirname] left open. *)
Definition pdfFilePath (dirname : string) : string := dirname ++ "/menu_go_papa.pdf".

Definition pdf_content (dirname : string) : value :=
  VObj [("document", VObj [("url", VStr (pdfFilePath dirname))]);
        ("mimetype", VStr "application/pdf");
        ("fileName", VStr "menu go papa.pdf")].

(** [socket.on('send_pdf', async (data, callback) => ...)], lines 110-161.
    [pdf_exists] is what [fs.existsSync(pdfFilePath)] answers. *)
Definition send_pdf (dirname : string) (globalSocket : option nat) (socket : client)
    (data : value) (pdf_exists : bool) (net : settlement) (timer_first : bool) : M unit :=
  try_catch
    (match globalSocket with
     | None =>
         perform (Callback socket (reply_error (VStr not_connected_msg)))
     | Some sock =>
         number <- destructure "data" data "number" ;;
         digits <- replace_non_digits number ;;
         let formattedNumber := digits ++ jid_suffix in
         if negb pdf_exists
         then perform (Callback socket (reply_error (VStr pdf_missing_msg)))
         else
           perform (EmitTo socket "keep_alive") ;;;
           try_catch
             (perform (SendMessage sock formattedNumber (pdf_content dirname)) ;;;
              await_race net timer_first pdf_timeout_msg ;;;
              perform (EmitTo socket "keep_alive") ;;;
              perform (Callback socket (reply_ok "PDF enviado correctamente")))
             (fun error => answer_error socket error "Error al enviar PDF")
     end)
    (fun error => answer_error socket error "Error general al procesar el envío de PDF").

(** The two send requests under one name. *)
Inductive send_kind : Type := Text | Document.

Record send_request : Type := {
  kind : send_kind;
  data : value;                  (* the request's argument *)
  pdf_exists : bool;             (* the file system when the request runs *)
  net : settlement;              (* the network operation, if one is started *)
  timer_first : bool
}.

Definition handle_send (dirname : string) (globalSocket : option nat) (socket : client)
    (r : send_request) : M unit :=
  match kind r with
  | Text => send_message globalSocket socket (data r) (net r) (timer_first r)
  | Document =>
      send_pdf dirname globalSocket socket (data r) (pdf_exists r) (net r) (timer_first r)
  end.

Definition timeout_msg (k : send_kind) : string :=
  match k with
  | Text => message_timeout_msg
  | Document => pdf_timeout_msg
  end.

(** ** The Baileys event handlers *)

Section Baileys.

(** [DisconnectReason.loggedOut], a constant of the Baileys library. *)
Variable loggedOut : Z.

(** [Date.now()] when the message at a given position of a batch is
    formatted, and JavaScript's [ToNumber] on strings and on objects
    ([None] is [NaN]). *)
Variable Date_now : nat -> Z.
Variable string_to_number : string -> option Z.
Variable object_to_number : list (string * value) -> option Z.

(** [sock.ev.on('connection.update', (update) => ...)], lines 187-208. *)
Definition on_connection_update (update : value) : M unit :=
  connection <- destructure "update" update "connection" ;;
  lastDisconnect <- destructure "update" update "lastDisconnect" ;;
  qr <- destructure "update" update "qr" ;;
  (if truthy qr then perform (Broadcast "qr" qr) else ret tt) ;;;
  if strict_eq_str connection "close" then
    error <- get_prop lastDisconnect "error" ;;
    let shouldReconnect :=
      negb (strict_eq_num (opt_get (opt_get error "output") "statusCode") loggedOut) in
    (if shouldReconnect then perform ConnectToWhatsApp else ret tt) ;;;
    perform (Broadcast "connection_status" (VObj [("status", VStr "disconnected")]))
  else if strict_eq_str connection "open" then
    perform (Broadcast "connection_status" (VObj [("status", VStr "connected")]))
  else ret tt.

(** [ToNumber]; a finite number is the double of its numeral. *)
Definition to_number (v : value) : number :=
  match v with
  | VUndefined => NaN
  | VNull => Finite 0
  | VBool b => Finite (if b then 1 else 0)
  | VNum n => double_of n
  | VStr s => match string_to_number s with Some n => double_of n | None => NaN end
  | VObj fs => match object_to_number fs with Some n => double_of n | None => NaN end
  | VInfinity negative => Infinite negative
  end.

(** [message.messageTimestamp * 1000 || Date.now()]: the product is a
    double; [NaN] and zero are falsy. *)
Definition timestamp_of (i : nat) (messageTimestamp : value) : value :=
  match times_1000 (to_number messageTimestamp) with
  | NaN => VNum (Date_now i)
  | Finite ms => js_or (VNum ms) (VNum (Date_now i))
  | Infinite negative => VInfinity negative
  end.

(** [remoteJid.split('@')[0]] *)
Definition split_at (remoteJid : value) : M value :=
  match remoteJid with
  | VStr s => ret (VStr (before_at s))
  | VUndefined | VNull => throw (cannot_read remoteJid "split")
  | _ => throw (type_error "message.key.remoteJid.split is not a function")
  end.

(** The least array index among the property names, with its name. *)
Fixpoint least_index (fs : list (string * value)) : option (N * string) :=
  match fs with
  | [] => None
  | (k, _) :: fs' =>
      match array_index k, least_index fs' with
      | Some n, Some (m, k') => if (n <=? m)%N then Some (n, k) else Some (m, k')
      | Some n, None => Some (n, k)
      | None, least => least
      end
  end.

(** [Object.keys(content)[0]] for a truthy [content]: of an object the
    least array index when it has one, and otherwise the name inserted
    first; of a string its first position; of any other primitive
    nothing. *)
Definition first_key (content : value) : value :=
  match content with
  | VObj fs =>
      match least_index fs with
      | Some (_, k) => VStr k
      | None => match fs with
                | (k, _) :: _ => VStr k
                | [] => VUndefined
                end
      end
  | VStr _ => VStr "0"
  | _ => VUndefined
  end.

(** The [message] field of the record that is broadcast, lines 222-225. *)
Definition message_body (content : value) : value :=
  js_or (opt_get content "conversation")
    (js_or (opt_get (opt_get content "extendedTextMessage") "text")
       (js_or (opt_get (opt_get content "imageMessage") "caption")
          (VStr "Mensaje multimedia"))).

(** The body of the [for] loop of [messages.upsert], lines 214-234, for
    the message at position [i]. *)
Definition on_message (i : nat) (message : value) : M unit :=
  content <- get_prop message "message" ;;
  if negb (truthy content) then ret tt else
  key <- get_prop message "key" ;;
  fromMe <- get_prop key "fromMe" ;;
  if truthy fromMe then ret tt else
  from <- get_prop key "remoteJid" ;;
  pushName <- get_prop message "pushName" ;;
  sender <- (if truthy pushName then ret pushName else split_at from) ;;
  messageTimestamp <- get_prop message "messageTimestamp" ;;
  let newMessage :=
    VObj [("from", from);
          ("sender", sender);
          ("message", message_body content);
          ("timestamp", timestamp_of i messageTimestamp);
          ("type", first_key content)] in
  perform (Broadcast "new_message" newMessage).

Fixpoint for_each (i : nat) (messages : list value) : M unit :=
  match messages with
  | [] => ret tt
  | message :: rest => on_message i message ;;; for_each (S i) rest
  end.

(** [sock.ev.on('messages.upsert', async ({ messages, type }) => ...)]. *)
Definition on_messages_upsert (messages : list value) : M unit :=
  for_each 0 messages.

(** ** The gateway as a whole *)

(** The module state the handlers share: [globalSocket], and how many
    sockets [makeWASocket] has produced (the next one's identity). *)
Record gateway : Type := {
  globalSocket : option nat;
  sockets_made : nat
}.

(** [let globalSocket = null;] *)
Definition initial : gateway := {| globalSocket := None; sockets_made := 0 |}.

Inductive event : Type :=
| Start                               (* the [server.listen] callback *)
| SocketCreated                       (* [connectToWhatsApp] reaches line 176 *)
| ConnectionUpdate (update : value)
| MessagesUpsert (messages : list value)
| SendRequest (dirname : string) (socket : client) (r : send_request)
| CheckStatus (socket : client).

(** One event: the state after it and the effects of its handler.  The
    only assignment to [globalSocket] in the program is line 184. *)
Definition step (g : gateway) (e : event) : gateway * list effect :=
  match e with
  | Start => (g, [ConnectToWhatsApp])
  | SocketCreated =>
      ({| globalSocket := Some (sockets_made g);
          sockets_made := S (sockets_made g) |}, [])
  | ConnectionUpdate update => (g, trace (on_connection_update update))
  | MessagesUpsert messages => (g, trace (on_messages_upsert messages))
  | SendRequest dirname socket r =>
      (g, trace (handle_send dirname (globalSocket g) socket r))
  | CheckStatus socket => (g, trace (check_status (globalSocket g) socket))
  end.

Fixpoint run (g : gateway) (history : list event) : gateway * list effect :=
  match history with
  | [] => (g, [])
  | e :: rest =>
      let (g1, t1) := step g e in
      let (g2, t2) := run g1 rest in
      (g2, t1 ++ t2)%list
  end.

(** The status of the last [connection_status] broadcast of a trace. *)
Fixpoint last_status (acc : value) (t : list effect) : value :=
  match t with
  | [] => acc
  | Broadcast ev payload :: t' =>
      last_status (if ev =? "connection_status" then opt_get payload "status" else acc) t'
  | _ :: t' => last_status acc t'
  end.

(** ** The session state machine of the specification *)

Inductive session_state : Type :=
| Disconnected | Connecting | AwaitingChallenge | Connected.

(** The value [(lastDisconnect.error)?.output?.statusCode] of a close. *)
Definition close_reason (update : value) : value :=
  opt_get (opt_get (opt_get (opt_get update "lastDisconnect") "error") "output")
    "statusCode".

(** The transitions as the specification words them (section 4.1):
    start leads to Connecting, a challenge to AwaitingChallenge, opened
    to Connected, closed to Disconnected and from there, unless the
    reason is loggedOut, back to Connecting. *)
Definition spec_step (s : session_state) (e : event) : session_state :=
  match e with
  | Start => Connecting
  | ConnectionUpdate update =>
      if strict_eq_str (opt_get update "connection") "close" then
        if strict_eq_num (close_reason update) loggedOut then Disconnected else Connecting
      else if strict_eq_str (opt_get update "connection") "open" then Connected
      else if truthy (opt_get update "qr") then
        match s with Connecting => AwaitingChallenge | _ => s end
      else s
  | _ => s
  end.

Definition spec_state (history : list event) : session_state :=
  fold_left spec_step history Disconnected.

End Baileys.

(** ** Reading traces *)

(** The replies a trace delivers through result callbacks, in order. *)
Definition callbacks (t : list effect) : list (client * value) :=
  flat_map (fun e => match e with Callback to reply => [(to, reply)] | _ => [] end) t.

(** A dispatch is a call into the network layer. *)
Definition is_dispatch (e : effect) : bool :=
  match e with
  | SendMessage _ _ _ => true
  | _ => false
  end.

Definition dispatched (t : list effect) : bool := existsb is_dispatch t.

(** The effects before, and after, the first dispatch of a trace. *)
Fixpoint before_dispatch (t : list effect) : list effect :=
  match t with
  | [] => []
  | e :: t' => if is_dispatch e then [] else e :: before_dispatch t'
  end.

Fixpoint after_dispatch (t : list effect) : list effect :=
  match t with
  | [] => []
  | e :: t' => if is_dispatch e then t' else after_dispatch t'
  end.

(** Does effect [e] put event [ev] on the connection of client [c], when
    [clients] are the connected clients?  [socket.emit] reaches its own
    socket, [io.emit] every connected one. *)
Definition delivers (clients : list client) (c : client) (ev : string) (e : effect) : bool :=
  match e with
  | EmitTo to ev' => (to =? c) && (ev' =? ev)
  | Broadcast ev' _ => (ev' =? ev) && existsb (String.eqb c) clients
  | _ => false
  end.

Definition keep_alive_to (c : client) (e : effect) : bool :=
  match e with
  | EmitTo to ev => (to =? c) && (ev =? "keep_alive")
  | _ => false
  end.

(** A reply that reports success. *)
Definition is_success (reply : value) : bool :=
  match opt_get reply "success" with
  | VBool b => b
  | _ => false
  end.

(** The operation did not settle within the deadline. *)
Definition overdue (n : settlement) : Prop :=
  match n with
  | Fulfils t | Rejects t _ => (send_deadline < t)%N
  | Pending => True
  end.




(** Concrete inputs used below. *)
Definition hola_request : value :=
  VObj [("number", VStr "573143604303"); ("message", VStr "hola")].

Definition pdf_request : value := VObj [("number", VStr "123")].

Definition open_update : value := VObj [("connection", VStr "open")].

Definition close_update (statusCode : Z) : value :=
  VObj [("connection", VStr "close");
        ("lastDisconnect",
         VObj [("error", VObj [("output", VObj [("statusCode", VNum statusCode)])])])].

(** The server starts, the socket is created, the session opens and is
    then closed by a logout. *)
Definition logout_history (loggedOut : Z) : list event :=
  [Start; SocketCreated; ConnectionUpdate open_update;
   ConnectionUpdate (close_update loggedOut)].




(** The number of [connectToWhatsApp()] calls of a trace. *)
Definition reconnects (t : list effect) : nat :=
  length (filter (fun e => match e with ConnectToWhatsApp => true | _ => false end) t).

(** ** The runs of a send handler

    Every run of [send_message] and [send_pdf] has one of three forms:
    the request is answered before anything is dispatched; the operation is
    dispatched and wins the race; or it is dispatched and the race ends in
    a rejection, the operation's own or the timer's. *)

Definition success_msg (k : send_kind) : string :=
  match k with
  | Text => "Mensaje enviado correctamente"
  | Document => "PDF enviado correctamente"
  end.

Definition failure_fallback (k : send_kind) : string :=
  match k with
  | Text => "Error al enviar mensaje"
  | Document => "Error al enviar PDF"
  end.

(** What the two [catch] blocks make of a rejection [e]: reading
    [e.message] in the inner block throws when [e] is nullish, and the outer
    block then reports that [TypeError]. *)
Definition failure_reply (k : send_kind) (e : value) : value :=
  if nullish e
  then reply_error (opt_get (cannot_read e "message") "message")
  else reply_error (js_or (opt_get e "message") (VStr (failure_fallback k))).

Inductive send_run (socket : client) (r : send_request) : M unit -> Prop :=
| Run_refused (reply : value) :
    is_success reply = false ->
    send_run socket r ([Callback socket reply], inl tt)
| Run_delivered (sock : nat) (jid : string) (content : value) :
    await_race (net r) (timer_first r) (timeout_msg (kind r)) = ret tt ->
    send_run socket r
      ([EmitTo socket "keep_alive"; SendMessage sock jid content;
        EmitTo socket "keep_alive";
        Callback socket (reply_ok (success_msg (kind r)))], inl tt)
| Run_failed (sock : nat) (jid : string) (content : value) (e : value) :
    await_race (net r) (timer_first r) (timeout_msg (kind r)) = throw e ->
    send_run socket r
      ([EmitTo socket "keep_alive"; SendMessage sock jid content;
        Callback socket (failure_reply (kind r) e)], inl tt).

(** ** Further readings of inputs and traces *)

(** A string of decimal digits only. *)
Fixpoint all_digits (s : string) : bool :=
  match s with
  | EmptyString => true
  | String c s' => is_digit c && all_digits s'
  end.

(** An ['@'] occurs in the string. *)
Fixpoint has_at (s : string) : bool :=
  match s with
  | EmptyString => false
  | String c s' => (c =? "@")%char || has_at s'
  end.

(** The calls into the network layer of a trace: socket, recipient and
    content of each, in order. *)
Definition dispatches (t : list effect) : list (nat * string * value) :=
  flat_map (fun e => match e with
                     | SendMessage sock jid content => [(sock, jid, content)]
                     | _ => []
                     end) t.

(** The [io.emit] broadcasts of a trace, in order. *)
Definition broadcasts (t : list effect) : list (string * value) :=
  flat_map (fun e => match e with
                     | Broadcast ev payload => [(ev, payload)]
                     | _ => []
                     end) t.

(** The second argument of [globalSocket.sendMessage] for a request: the
    text of lines 78, the document descriptor of lines 137-141. *)
Definition content_of (dirname : string) (r : send_request) : value :=
  match kind r with
  | Text => VObj [("text", opt_get (data r) "message")]
  | Document => pdf_content dirname
  end.

(** The same request with another behaviour of the network. *)
Definition with_net (r : send_request) (n : settlement) : send_request :=
  {| kind := kind r; data := data r; pdf_exists := pdf_exists r;
     net := n; timer_first := timer_first r |}.

(** The operation settles before the timer is due. *)
Definition in_time (t : N) : Prop := (t < send_deadline)%N.




(** A payload whose first property is numbered after a named one. *)
Definition indexed_payload : value :=
  VObj [("conversation", VStr "hola"); ("7", VStr "x"); ("2", VStr "y")].

(** The number of sockets a history creates. *)
Definition sockets_created (history : list event) : nat :=
  length (filter (fun e => match e with SocketCreated => true | _ => false end) history).


(** * Properties *)

(** ** The race *)

(** The race performs no effect of its own: it only waits. *)
Lemma await_race_trace (n : settlement) (timer_first : bool) (msg : string) :
  trace (await_race n timer_first msg) = [].
Proof.
  unfold await_race.
  destruct n as [t | t reason |]; try reflexivity;
    destruct ((t <? send_deadline) || (t =? send_deadline) && negb timer_first)%N;
    reflexivity.
Qed.

(** When the operation is overdue the timer settles the race. *)
Lemma await_race_overdue (n : settlement) (timer_first : bool) (msg : string) :
  overdue n -> await_race n timer_first msg = throw (new_error msg).
Proof.
  unfold await_race, overdue.
  destruct n as [t | t reason |]; try reflexivity; intros H;
    assert (Hlt : (t <? send_deadline)%N = false) by (apply N.ltb_ge; lia);
    assert (Heq : (t =? send_deadline)%N = false) by (apply N.eqb_neq; lia);
    rewrite Hlt, Heq; reflexivity.
Qed.

(** ** The send handlers *)

Lemma answer_error_cases (socket : client) (error : value) (fallback : string) :
  (nullish error = true /\
   answer_error socket error fallback = throw (cannot_read error "message")) \/
  (nullish error = false /\
   answer_error socket error fallback =
     perform (Callback socket (reply_error (js_or (opt_get error "message") (VStr fallback))))).
Proof.
  unfold answer_error, get_prop.
  destruct (nullish error); [left | right]; split; reflexivity.
Qed.

Lemma failure_reply_not_success (k : send_kind) (e : value) :
  is_success (failure_reply k e) = false.
Proof. unfold failure_reply. now destruct (nullish e). Qed.

Ltac refused := cbn; apply Run_refused; reflexivity.

Ltac settle_race r :=
  let H := fresh "Hrace" in
  let Hn := fresh "Hnullish" in
  let E := fresh "E" in
  let R := fresh "R" in
  destruct (await_race (net r) (timer_first r) (timeout_msg (kind r)))
    as [tr [[] | e]] eqn:H;
  pose proof (await_race_trace (net r) (timer_first r) (timeout_msg (kind r))) as E;
  rewrite H in E; cbn in E; subst tr;
  [ cbn; apply Run_delivered; exact H
  | cbn -[answer_error];
    match goal with
    | |- context [SendMessage ?sock ?jid ?content] =>
        match goal with
        | |- context [answer_error ?c e ?fb] =>
            pose proof (Run_failed c r sock jid content e H) as R;
            destruct (answer_error_cases c e fb) as [[Hn ->] | [Hn ->]]
        end
    end;
    cbn; unfold failure_reply in R; rewrite Hn in R; exact R ].

(** Every run of a send handler has one of the three forms. *)
Lemma handle_send_runs (dirname : string) (g : option nat) (socket : client)
    (r : send_request) :
  send_run socket r (handle_send dirname g socket r).
Proof.
  unfold handle_send.
  destruct (kind r) eqn:Hkind.
  - unfold send_message.
    destruct g as [sock |]; [| refused].
    destruct (data r) as [ | | b | z | s | fields | inf]; try refused.
    cbn -[await_race answer_error].
    destruct (lookup "number" fields); try refused.
    cbn -[await_race answer_error].
    replace message_timeout_msg with (timeout_msg (kind r)) by now rewrite Hkind.
    replace "Error al enviar mensaje" with (failure_fallback (kind r)) by now rewrite Hkind.
    replace "Mensaje enviado correctamente" with (success_msg (kind r)) by now rewrite Hkind.
    settle_race r.
  - unfold send_pdf.
    destruct g as [sock |]; [| refused].
    destruct (data r) as [ | | b | z | s | fields | inf]; try refused.
    cbn -[await_race answer_error].
    destruct (lookup "number" fields); try refused.
    destruct (pdf_exists r); [| refused].
    cbn -[await_race answer_error].
    replace pdf_timeout_msg with (timeout_msg (kind r)) by now rewrite Hkind.
    replace "Error al enviar PDF" with (failure_fallback (kind r)) by now rewrite Hkind.
    replace "PDF enviado correctamente" with (success_msg (kind r)) by now rewrite Hkind.
    settle_race r.
Qed.


(** C4. A send request whose network operation was started and does not
    settle within the 25000 ms deadline is answered with the timeout error
    of its kind, and with nothing else. *)
Theorem overdue_send_times_out_once (dirname : string) (g : option nat)
    (socket : client) (r : send_request) :
  dispatched (trace (handle_send dirname g socket r)) = true ->
  overdue (net r) ->
  callbacks (trace (handle_send dirname g socket r)) =
    [(socket, reply_error (VStr (timeout_msg (kind r))))].
Proof.
  intros Hsent Hlate.
  pose proof (await_race_overdue (net r) (timer_first r) (timeout_msg (kind r)) Hlate)
    as Htimer.
  destruct (handle_send_runs dirname g socket r) as [reply _ | sock jid content H | sock jid content e H].
  - discriminate Hsent.
  - rewrite Htimer in H. discriminate H.
  - rewrite Htimer in H. injection H as <-.
    cbn. now destruct (kind r).
Qed.

Lemma overdue_send_times_out_once_witness :
  let r := {| kind := Text; data := hola_request; pdf_exists := true;
              net := Fulfils 25001; timer_first := false |} in
  callbacks (trace (handle_send "/app" (Some 0%nat) "A" r)) =
    [("A", reply_error (VStr "Timeout al enviar mensaje"))].
Proof.
  intro r.
  apply (overdue_send_times_out_once "/app" (Some 0%nat) "A" r).
  - reflexivity.
  - vm_compute. reflexivity.
Defined.

(** C8, as the specification states it, fails: a dispatch that ends in a
    timeout is followed by no keep-alive at all. *)
Lemma keep_alive_missing_after_timeout :
  let r := {| kind := Text; data := hola_request; pdf_exists := true;
              net := Pending; timer_first := false |} in
  let t := trace (handle_send "/app" (Some 0%nat) "A" r) in
  dispatched t = true /\
  ~ (existsb (keep_alive_to "A") (before_dispatch t) = true /\
     existsb (keep_alive_to "A") (after_dispatch t) = true).
Proof.
  cbn. split; [reflexivity |]. intros [_ H]. discriminate H.
Qed.

(** C8, amended. Whenever a send handler dispatches, it has emitted a
    keep-alive to the requesting client before the dispatch; it emits a
    second one after the dispatch exactly when the operation succeeded; and
    no keep-alive of the request is delivered to any other client. *)
Theorem keep_alive_around_dispatch (dirname : string) (g : option nat)
    (socket : client) (r : send_request) :
  dispatched (trace (handle_send dirname g socket r)) = true ->
  let t := trace (handle_send dirname g socket r) in
  existsb (keep_alive_to socket) (before_dispatch t) = true /\
  (existsb (keep_alive_to socket) (after_dispatch t) = true <->
   exists reply, callbacks t = [(socket, reply)] /\ is_success reply = true) /\
  (forall clients c, c <> socket ->
     existsb (delivers clients c "keep_alive") t = false).
Proof.
  intros Hsent t. subst t.
  assert (Hself : (socket =? socket) = true) by apply String.eqb_refl.
  assert (Hother : forall c, c <> socket -> (socket =? c) = false).
  { intros c Hc. apply String.eqb_neq. congruence. }
  destruct (handle_send_runs dirname g socket r) as [reply _ | sock jid content H | sock jid content e H].
  - discriminate Hsent.
  - cbn. rewrite Hself. cbn. repeat split.
    + intros _. eexists; split; reflexivity.
    + intros clients c Hc. now rewrite (Hother c Hc).
  - cbn. rewrite Hself. cbn. repeat split.
    + discriminate.
    + intros (reply & Hr & Hok). injection Hr as <-.
      rewrite failure_reply_not_success in Hok. discriminate Hok.
    + intros clients c Hc. now rewrite (Hother c Hc).
Qed.

Lemma keep_alive_around_dispatch_witness :
  let r := {| kind := Document; data := pdf_request; pdf_exists := true;
              net := Fulfils 800; timer_first := true |} in
  let t := trace (handle_send "/app" (Some 0%nat) "A" r) in
  existsb (keep_alive_to "A") (before_dispatch t) = true /\
  (existsb (keep_alive_to "A") (after_dispatch t) = true <->
   exists reply, callbacks t = [("A", reply)] /\ is_success reply = true) /\
  (forall clients c, c <> "A" ->
     existsb (delivers clients c "keep_alive") t = false).
Proof.
  intro r.
  apply (keep_alive_around_dispatch "/app" (Some 0%nat) "A" r).
  reflexivity.
Defined.

(** C6, as the specification states it, fails: with the asset absent and
    no session handle, the caller is told that WhatsApp is not connected,
    not that the asset is missing. *)
Lemma missing_pdf_without_session :
  callbacks (trace (send_pdf "/app" None "B" pdf_request false Pending false)) <>
    [("B", reply_error (VStr pdf_missing_msg))].
Proof. cbn. discriminate. Qed.

(** C6, amended. While the asset file is absent no [send_pdf] request
    reaches the network layer; and when a session handle exists and the
    request carries a string [number], the caller receives exactly the
    missing-asset error. *)
Theorem missing_pdf_is_reported (dirname : string) (g : option nat)
    (socket : client) (request : value) (n : settlement) (timer_first : bool) :
  dispatched (trace (send_pdf dirname g socket request false n timer_first)) = false /\
  (forall sock s,
      g = Some sock ->
      opt_get request "number" = VStr s ->
      send_pdf dirname g socket request false n timer_first =
        ([Callback socket (reply_error (VStr pdf_missing_msg))], inl tt)).
Proof.
  split.
  - unfold send_pdf.
    destruct g as [sock |]; [| reflexivity].
    destruct request as [ | | b | z | s | fields | inf]; try reflexivity.
    cbn. destruct (lookup "number" fields); reflexivity.
  - intros sock s -> Hnumber.
    destruct request as [ | | b | z | s' | fields | inf]; try discriminate Hnumber.
    unfold send_pdf. cbn in *. rewrite Hnumber. reflexivity.
Qed.

Lemma missing_pdf_is_reported_witness :
  send_pdf "/app" (Some 0%nat) "B" pdf_request false Pending false =
    ([Callback "B" (reply_error (VStr "El archivo PDF no existe"))], inl tt).
Proof.
  apply (proj2 (missing_pdf_is_reported "/app" (Some 0%nat) "B" pdf_request Pending false)
           0%nat "123"); reflexivity.
Defined.

(** ** The connection handler *)

(** An update whose [connection] is ['close'] is an object. *)
Lemma close_is_object (update : value) :
  strict_eq_str (opt_get update "connection") "close" = true ->
  exists fields, update = VObj fields.
Proof.
  destruct update; try discriminate. eauto.
Qed.

(** The handler on a close event, as one equation: the challenge part,
    then either the [TypeError] of [lastDisconnect.error] or the reconnect
    decision and the status broadcast. *)
Lemma on_close (loggedOut : Z) (update : value) :
  strict_eq_str (opt_get update "connection") "close" = true ->
  on_connection_update loggedOut update =
    let qr := opt_get update "qr" in
    let challenge := if truthy qr then [Broadcast "qr" qr] else [] in
    if nullish (opt_get update "lastDisconnect")
    then (challenge, inr (cannot_read (opt_get update "lastDisconnect") "error"))
    else ((challenge ++
           (if strict_eq_num (close_reason update) loggedOut then [] else [ConnectToWhatsApp]) ++
           [Broadcast "connection_status" (VObj [("status", VStr "disconnected")])])%list,
          inl tt).
Proof.
  intros Hclose.
  destruct (close_is_object update Hclose) as [fields ->].
  unfold on_connection_update, close_reason. cbn in Hclose |- *.
  rewrite Hclose.
  destruct (truthy (lookup "qr" fields));
    destruct (lookup "lastDisconnect" fields) as [ | | b | z | s | ld | inf];
    try reflexivity; cbn;
    match goal with
    | |- context [strict_eq_num ?v loggedOut] => destruct (strict_eq_num v loggedOut)
    end; reflexivity.
Qed.

Lemma last_status_challenge (qr : value) (acc : value) (t : list effect) :
  last_status acc ((if truthy qr then [Broadcast "qr" qr] else []) ++ t) =
  last_status acc t.
Proof. now destruct (truthy qr). Qed.

Lemma reconnects_challenge (qr : value) (t : list effect) :
  reconnects ((if truthy qr then [Broadcast "qr" qr] else []) ++ t) = reconnects t.
Proof. now destruct (truthy qr). Qed.

(** C3, as the specification states it, fails: a close event without its
    [lastDisconnect] record has a reason other than loggedOut, and the
    specification's machine goes back to Connecting, yet the handler makes
    no [connectToWhatsApp()] call: it ends in the [TypeError] of
    [lastDisconnect.error] before it decides. *)
Lemma close_without_record_does_not_reconnect :
  let update := VObj [("connection", VStr "close")] in
  let m := on_connection_update 401 update in
  strict_eq_str (opt_get update "connection") "close" = true /\
  strict_eq_num (close_reason update) 401 = false /\
  spec_step 401 Connected (ConnectionUpdate update) = Connecting /\
  reconnects (trace m) = 0 /\
  outcome m = inr (cannot_read VUndefined "error").
Proof. cbn. repeat split. Qed.

(** C3, amended. On a close event that carries its [lastDisconnect] record the
    handler completes and announces the disconnection; when the close
    reason is loggedOut it makes no [connectToWhatsApp()] call, so the
    session stays Disconnected, and for every other reason it makes exactly
    one, within the same handler run, so the session is Connecting again.
    The specification's state machine takes the same decision. *)
Theorem close_reconnects_unless_logged_out (loggedOut : Z) (s : session_state)
    (update : value) :
  strict_eq_str (opt_get update "connection") "close" = true ->
  nullish (opt_get update "lastDisconnect") = false ->
  let m := on_connection_update loggedOut update in
  outcome m = inl tt /\
  last_status VUndefined (trace m) = VStr "disconnected" /\
  (strict_eq_num (close_reason update) loggedOut = true ->
     reconnects (trace m) = 0 /\
     spec_step loggedOut s (ConnectionUpdate update) = Disconnected) /\
  (strict_eq_num (close_reason update) loggedOut = false ->
     reconnects (trace m) = 1 /\
     spec_step loggedOut s (ConnectionUpdate update) = Connecting).
Proof.
  intros Hclose Hrecord m. subst m.
  rewrite (on_close loggedOut update Hclose). cbn zeta. rewrite Hrecord.
  unfold outcome, trace, spec_step. cbn [fst snd]. rewrite Hclose.
  rewrite last_status_challenge, reconnects_challenge.
  destruct (strict_eq_num (close_reason update) loggedOut);
    repeat split; try reflexivity; intros; discriminate.
Qed.

Lemma close_reconnects_unless_logged_out_witness :
  let logout := on_connection_update 401 (close_update 401) in
  let lost := on_connection_update 401 (close_update 428) in
  reconnects (trace logout) = 0 /\ reconnects (trace lost) = 1.
Proof.
  intros logout lost. split.
  - apply (close_reconnects_unless_logged_out 401 Connected (close_update 401));
      reflexivity.
  - apply (close_reconnects_unless_logged_out 401 Connected (close_update 428));
      reflexivity.
Defined.

(** C9. On a close event the handler reads [lastDisconnect.error] without
    testing [lastDisconnect]: it ends in a thrown [TypeError] exactly when
    the event lacks that record, and then neither reconnects nor announces
    the disconnection. *)
Theorem close_throws_without_lastDisconnect (loggedOut : Z) (update : value) :
  strict_eq_str (opt_get update "connection") "close" = true ->
  let m := on_connection_update loggedOut update in
  ((exists e, outcome m = inr e) <-> nullish (opt_get update "lastDisconnect") = true) /\
  (nullish (opt_get update "lastDisconnect") = true ->
     outcome m = inr (cannot_read (opt_get update "lastDisconnect") "error") /\
     reconnects (trace m) = 0 /\
     last_status VUndefined (trace m) = VUndefined).
Proof.
  intros Hclose m. subst m.
  rewrite (on_close loggedOut update Hclose). cbn zeta.
  destruct (nullish (opt_get update "lastDisconnect")); unfold outcome, trace; cbn [fst snd].
  - split.
    + split; [reflexivity | eauto].
    + intros _. split; [reflexivity |].
      now destruct (truthy (opt_get update "qr")).
  - split.
    + split; [intros [e H]; discriminate H | discriminate].
    + discriminate.
Qed.

Lemma close_throws_without_lastDisconnect_witness :
  exists e, outcome (on_connection_update 401 (VObj [("connection", VStr "close")])) = inr e.
Proof.
  apply (proj1 (close_throws_without_lastDisconnect 401
                  (VObj [("connection", VStr "close")]) eq_refl)).
  reflexivity.
Defined.

(** ** The session handle and the session state *)

(** No handler but the socket creation touches [globalSocket], so a handle,
    once there, stays: nothing clears it on close. *)
Lemma handle_is_never_cleared (loggedOut : Z) (Date_now : nat -> Z)
    (string_to_number : string -> option Z)
    (object_to_number : list (string * value) -> option Z)
    (history : list event) (g : gateway) :
  globalSocket g <> None ->
  globalSocket
    (fst (run loggedOut Date_now string_to_number object_to_number g history)) <> None.
Proof.
  revert g. induction history as [| e rest IH]; intros g Hg; [exact Hg |].
  cbn.
  destruct (step loggedOut Date_now string_to_number object_to_number g e)
    as [g1 t1] eqn:Hstep.
  specialize (IH g1).
  destruct (run loggedOut Date_now string_to_number object_to_number g1 rest)
    as [g2 t2].
  cbn in *. apply IH.
  destruct e; cbn in Hstep; injection Hstep as <- _; try exact Hg.
  discriminate.
Qed.

(** Before the first socket is created every send request is refused with
    the not-connected error, and nothing is dispatched. *)
Lemma send_without_handle_is_refused (dirname : string) (socket : client)
    (r : send_request) :
  handle_send dirname None socket r =
    ([Callback socket (reply_error (VStr not_connected_msg))], inl tt).
Proof. unfold handle_send. now destruct (kind r). Qed.

(** C1, at the failing input. After a logout has closed the session the
    state is Disconnected and the gateway itself has broadcast
    ['disconnected'], yet a send request of either kind passes the guard on
    the stale handle: it is dispatched to the network layer and, when that
    acknowledges, answered with success instead of the not-connected
    error. *)
Theorem send_after_logout_is_dispatched (loggedOut : Z) (Date_now : nat -> Z)
    (string_to_number : string -> option Z)
    (object_to_number : list (string * value) -> option Z) (k : send_kind) :
  let after :=
    run loggedOut Date_now string_to_number object_to_number initial
      (logout_history loggedOut) in
  let r := {| kind := k; data := hola_request; pdf_exists := true;
              net := Fulfils 1000; timer_first := false |} in
  let t := trace (handle_send "/app" (globalSocket (fst after)) "A" r) in
  spec_state loggedOut (logout_history loggedOut) = Disconnected /\
  last_status VUndefined (snd after) = VStr "disconnected" /\
  dispatched t = true /\
  callbacks t = [("A", reply_ok (success_msg k))].
Proof.
  unfold logout_history, spec_state. cbn.
  rewrite Z.eqb_refl. cbn.
  destruct k; repeat split; reflexivity.
Qed.

(** C2, at the failing input. In the same situation [check_status] still
    answers [connected: true, status: 'connected']. *)
Theorem check_status_after_logout_says_connected (loggedOut : Z)
    (Date_now : nat -> Z) (string_to_number : string -> option Z)
    (object_to_number : list (string * value) -> option Z) :
  let after :=
    run loggedOut Date_now string_to_number object_to_number initial
      (logout_history loggedOut) in
  spec_state loggedOut (logout_history loggedOut) = Disconnected /\
  last_status VUndefined (snd after) = VStr "disconnected" /\
  check_status (globalSocket (fst after)) "B" =
    ([Callback "B" (VObj [("connected", VBool true); ("status", VStr "connected")])],
     inl tt).
Proof.
  unfold logout_history, spec_state. cbn.
  rewrite Z.eqb_refl. cbn.
  repeat split; reflexivity.
Qed.

(** C10. Every [check_status] call is answered with one reply, whose
    [connected] field is [true] exactly when its [status] field is
    ['connected']: the reply is one of the two consistent pairs. *)
Theorem check_status_fields_agree (g : option nat) (socket : client) :
  exists reply,
    check_status g socket = ([Callback socket reply], inl tt) /\
    opt_get reply "connected" = VBool (strict_eq_str (opt_get reply "status") "connected") /\
    (reply = VObj [("connected", VBool true); ("status", VStr "connected")] \/
     reply = VObj [("connected", VBool false); ("status", VStr "disconnected")]).
Proof.
  destruct g as [sock |]; eexists; (split; [reflexivity |]); cbn; auto.
Qed.

(** ** Inbound messages *)




(** * Further properties of the code *)

(** ** Recipient addresses *)

Lemma strip_non_digits_app (a b : string) :
  strip_non_digits (a ++ b) = strip_non_digits a ++ strip_non_digits b.
Proof.
  induction a as [| c a IH]; [reflexivity |].
  cbn. destruct (is_digit c); cbn; now rewrite IH.
Qed.

Lemma digit_is_not_at (c : ascii) : is_digit c = true -> (c =? "@")%char = false.
Proof.
  intros H. destruct (Ascii.eqb_spec c "@") as [-> |]; [discriminate H | reflexivity].
Qed.

Lemma digits_have_no_at (s : string) : all_digits s = true -> has_at s = false.
Proof.
  induction s as [| c s IH]; [reflexivity |].
  cbn. intros H. apply andb_true_iff in H as [Hc Hs].
  now rewrite (digit_is_not_at c Hc), (IH Hs).
Qed.

Lemma before_at_app (s rest : string) :
  has_at s = false -> before_at (s ++ String "@" rest) = s.
Proof.
  induction s as [| c s IH]; [reflexivity |].
  cbn. intros H. apply orb_false_iff in H as [Hc Hs].
  now rewrite Hc, (IH Hs).
Qed.

Lemma strip_non_digits_all_digits (s : string) :
  all_digits (strip_non_digits s) = true.
Proof.
  induction s as [| c s IH]; [reflexivity |].
  cbn. destruct (is_digit c) eqn:Hc; [| exact IH].
  cbn. now rewrite Hc, IH.
Qed.

(** X1. The address built from a number (lines 68 and 121) has a local part of
    decimal digits only, whatever the number contains, and normalising a
    normalised number changes nothing. *)
Theorem normalised_number_is_digits (s : string) :
  all_digits (strip_non_digits s) = true /\
  strip_non_digits (strip_non_digits s) = strip_non_digits s.
Proof.
  induction s as [| c s [IHd IHi]]; [split; reflexivity |].
  cbn. destruct (is_digit c) eqn:Hc; [| now split].
  cbn. rewrite Hc, IHd, IHi. now split.
Qed.

(** X2. A number written with digits only, as the README asks for, is used as
    it is; in particular the empty number is not refused but addressed as
    the bare suffix. *)
Theorem digits_only_number_is_kept (s : string) :
  all_digits s = true -> strip_non_digits s = s.
Proof.
  induction s as [| c s IH]; [reflexivity |].
  cbn. intros H. apply andb_true_iff in H as [Hc Hs].
  now rewrite Hc, (IH Hs).
Qed.

Lemma digits_only_number_is_kept_witness :
  strip_non_digits "573143604303" = "573143604303".
Proof. apply (digits_only_number_is_kept "573143604303"). reflexivity. Defined.

(** X3. The sender label that [messages.upsert] derives from a [remoteJid]
    (line 221) undoes the address formatting of the send handlers: from the
    address built for a number it recovers the normalised number. *)
Theorem sender_label_of_formatted_number (number : string) :
  before_at (strip_non_digits number ++ jid_suffix) = strip_non_digits number.
Proof.
  apply (before_at_app (strip_non_digits number) "s.whatsapp.net").
  apply digits_have_no_at. apply strip_non_digits_all_digits.
Qed.

(** X4. [split('@')[0]] never contains an ['@'], and is the whole string when
    the string has none. *)
Theorem before_at_has_no_at (s : string) :
  has_at (before_at s) = false /\ (has_at s = false -> before_at s = s).
Proof.
  induction s as [| c s [IHn IHk]]; [split; reflexivity |].
  cbn. destruct (c =? "@")%char eqn:Hc; cbn.
  - split; [reflexivity | discriminate].
  - rewrite Hc, IHn. split; [reflexivity |]. intros H. now rewrite (IHk H).
Qed.

Lemma before_at_has_no_at_witness :
  before_at "status-broadcast" = "status-broadcast".
Proof. apply (proj2 (before_at_has_no_at "status-broadcast")). reflexivity. Defined.

(** ** What a send request does *)

Lemma await_race_fulfilled (t : N) (timer_first : bool) (msg : string) :
  in_time t -> await_race (Fulfils t) timer_first msg = ret tt.
Proof.
  unfold in_time, await_race. intros Ht. apply N.ltb_lt in Ht. now rewrite Ht.
Qed.

Lemma await_race_rejected (t : N) (reason : value) (timer_first : bool) (msg : string) :
  in_time t -> await_race (Rejects t reason) timer_first msg = throw reason.
Proof.
  unfold in_time, await_race. intros Ht. apply N.ltb_lt in Ht. now rewrite Ht.
Qed.

(** The run of a request that passes every guard, as one equation. *)
Lemma dispatched_run (dirname : string) (sock : nat) (socket : client)
    (r : send_request) (s : string) :
  opt_get (data r) "number" = VStr s ->
  (kind r = Document -> pdf_exists r = true) ->
  handle_send dirname (Some sock) socket r =
    (([EmitTo socket "keep_alive";
       SendMessage sock (strip_non_digits s ++ jid_suffix) (content_of dirname r)] ++
      match outcome (await_race (net r) (timer_first r) (timeout_msg (kind r))) with
      | inl _ => [EmitTo socket "keep_alive";
                  Callback socket (reply_ok (success_msg (kind r)))]
      | inr e => [Callback socket (failure_reply (kind r) e)]
      end)%list, inl tt).
Proof.
  intros Hnumber Hpdf.
  pose proof (await_race_trace (net r) (timer_first r) (timeout_msg (kind r))) as Hquiet.
  unfold handle_send, content_of.
  destruct (data r) as [ | | b | z | s' | fields | inf]; try discriminate Hnumber.
  cbn in Hnumber.
  destruct (kind r) eqn:Hkind.
  - change (timeout_msg Text) with message_timeout_msg in *.
    unfold send_message. cbn -[await_race answer_error]. rewrite Hnumber.
    cbn -[await_race answer_error].
    remember (await_race (net r) (timer_first r) message_timeout_msg) as race eqn:Hrace.
    destruct race as [tr [[] | e]]; cbn in Hquiet; subst tr; cbn -[answer_error];
      [reflexivity |].
    unfold failure_reply.
    destruct (answer_error_cases socket e "Error al enviar mensaje") as [[Hn ->] | [Hn ->]];
      rewrite Hn; reflexivity.
  - change (timeout_msg Document) with pdf_timeout_msg in *.
    unfold send_pdf. cbn -[await_race answer_error]. rewrite Hnumber, (Hpdf eq_refl).
    cbn -[await_race answer_error].
    remember (await_race (net r) (timer_first r) pdf_timeout_msg) as race eqn:Hrace.
    destruct race as [tr [[] | e]]; cbn in Hquiet; subst tr; cbn -[answer_error];
      [reflexivity |].
    unfold failure_reply.
    destruct (answer_error_cases socket e "Error al enviar PDF") as [[Hn ->] | [Hn ->]];
      rewrite Hn; reflexivity.
Qed.

(** X5. A request is dispatched exactly when a socket handle exists, its
    [number] is a string and, for a document, the file exists. *)
Theorem dispatch_conditions (dirname : string) (g : option nat) (socket : client)
    (r : send_request) :
  dispatched (trace (handle_send dirname g socket r)) = true <->
  exists sock s,
    g = Some sock /\ opt_get (data r) "number" = VStr s /\
    (kind r = Document -> pdf_exists r = true).
Proof.
  split.
  - intros Hsent. unfold handle_send in Hsent.
    destruct g as [sock |]; [| destruct (kind r); discriminate Hsent].
    destruct (kind r) eqn:Hkind.
    + unfold send_message in Hsent.
      destruct (data r) as [ | | b | z | s | fields | inf] eqn:Hdata; try discriminate Hsent.
      cbn -[await_race answer_error] in Hsent.
      destruct (lookup "number" fields) as [ | | b | z | s | o | inf] eqn:Hnumber;
        try discriminate Hsent.
      exists sock, s. repeat split; [exact Hnumber | discriminate].
    + unfold send_pdf in Hsent.
      destruct (data r) as [ | | b | z | s | fields | inf] eqn:Hdata; try discriminate Hsent.
      cbn -[await_race answer_error] in Hsent.
      destruct (lookup "number" fields) as [ | | b | z | s | o | inf] eqn:Hnumber;
        try discriminate Hsent.
      destruct (pdf_exists r) eqn:Hfile; [| discriminate Hsent].
      exists sock, s. repeat split; exact Hnumber.
  - intros (sock & s & -> & Hnumber & Hfile).
    rewrite (dispatched_run dirname sock socket r s Hnumber Hfile). reflexivity.
Qed.

(** X6. A dispatched request makes one call into the network layer: on the
    current socket, to the digits of the number followed by the WhatsApp
    suffix, with the text of the request or the descriptor of the PDF. *)
Theorem dispatch_goes_to_normalised_address (dirname : string) (sock : nat)
    (socket : client) (r : send_request) (s : string) :
  opt_get (data r) "number" = VStr s ->
  (kind r = Document -> pdf_exists r = true) ->
  dispatches (trace (handle_send dirname (Some sock) socket r)) =
    [(sock, strip_non_digits s ++ jid_suffix, content_of dirname r)].
Proof.
  intros Hnumber Hfile.
  rewrite (dispatched_run dirname sock socket r s Hnumber Hfile).
  unfold trace. cbn.
  now destruct (outcome (await_race (net r) (timer_first r) (timeout_msg (kind r)))).
Qed.

Lemma dispatch_goes_to_normalised_address_witness :
  let r := {| kind := Text;
              data := VObj [("number", VStr "+57 (314) 360-4303"); ("message", VStr "hola")];
              pdf_exists := false; net := Pending; timer_first := true |} in
  dispatches (trace (handle_send "/app" (Some 2%nat) "A" r)) =
    [(2%nat, "573143604303@s.whatsapp.net", VObj [("text", VStr "hola")])].
Proof.
  intro r.
  apply (dispatch_goes_to_normalised_address "/app" 2%nat "A" r "+57 (314) 360-4303").
  - reflexivity.
  - discriminate.
Defined.

(** X7. When the network acknowledges before the deadline the request runs
    keep-alive, dispatch, keep-alive, success reply, in this order and with
    nothing else. *)
Theorem acknowledged_send_succeeds (dirname : string) (sock : nat) (socket : client)
    (r : send_request) (s : string) (t : N) :
  opt_get (data r) "number" = VStr s ->
  (kind r = Document -> pdf_exists r = true) ->
  net r = Fulfils t ->
  in_time t ->
  handle_send dirname (Some sock) socket r =
    ([EmitTo socket "keep_alive";
      SendMessage sock (strip_non_digits s ++ jid_suffix) (content_of dirname r);
      EmitTo socket "keep_alive";
      Callback socket (reply_ok (success_msg (kind r)))], inl tt).
Proof.
  intros Hnumber Hfile Hnet Ht.
  rewrite (dispatched_run dirname sock socket r s Hnumber Hfile), Hnet.
  now rewrite (await_race_fulfilled t _ _ Ht).
Qed.

Lemma acknowledged_send_succeeds_witness :
  let r := {| kind := Text; data := hola_request; pdf_exists := false;
              net := Fulfils 1000; timer_first := true |} in
  handle_send "/app" (Some 0%nat) "A" r =
    ([EmitTo "A" "keep_alive";
      SendMessage 0 "573143604303@s.whatsapp.net" (VObj [("text", VStr "hola")]);
      EmitTo "A" "keep_alive";
      Callback "A" (reply_ok "Mensaje enviado correctamente")], inl tt).
Proof.
  intro r.
  apply (acknowledged_send_succeeds "/app" 0%nat "A" r "573143604303" 1000);
    try reflexivity; discriminate.
Defined.

(** X8. When the network layer rejects before the deadline with an error that
    has a non-empty [message], the caller receives exactly that message. *)
Theorem network_failure_is_reported (dirname : string) (sock : nat) (socket : client)
    (r : send_request) (s : string) (t : N) (reason : value) (msg : string) :
  opt_get (data r) "number" = VStr s ->
  (kind r = Document -> pdf_exists r = true) ->
  net r = Rejects t reason ->
  in_time t ->
  opt_get reason "message" = VStr msg ->
  msg <> EmptyString ->
  callbacks (trace (handle_send dirname (Some sock) socket r)) =
    [(socket, reply_error (VStr msg))].
Proof.
  intros Hnumber Hfile Hnet Ht Hmsg Hne.
  rewrite (dispatched_run dirname sock socket r s Hnumber Hfile), Hnet.
  rewrite (await_race_rejected t reason _ _ Ht).
  cbn -[failure_reply]. unfold failure_reply, js_or. rewrite Hmsg.
  destruct reason; try discriminate Hmsg. cbn.
  apply String.eqb_neq in Hne. now rewrite Hne.
Qed.

Lemma network_failure_is_reported_witness :
  let r := {| kind := Document; data := pdf_request; pdf_exists := true;
              net := Rejects 40 (new_error "Connection Closed"); timer_first := false |} in
  callbacks (trace (handle_send "/app" (Some 0%nat) "A" r)) =
    [("A", reply_error (VStr "Connection Closed"))].
Proof.
  intro r.
  apply (network_failure_is_reported "/app" 0%nat "A" r "123" 40
           (new_error "Connection Closed") "Connection Closed");
    try reflexivity; discriminate.
Defined.

(** X9. When the rejection carries no usable [message] (none, or an empty one)
    the caller receives the fixed text of the handler; and a rejection with
    [undefined] or [null] is reported through the outer handler as the
    [TypeError] of reading its [message]. *)
Theorem network_failure_without_message (dirname : string) (sock : nat)
    (socket : client) (r : send_request) (s : string) (t : N) (reason : value) :
  opt_get (data r) "number" = VStr s ->
  (kind r = Document -> pdf_exists r = true) ->
  net r = Rejects t reason ->
  in_time t ->
  truthy (opt_get reason "message") = false ->
  callbacks (trace (handle_send dirname (Some sock) socket r)) =
    [(socket,
      reply_error
        (if nullish reason
         then VStr ("Cannot read properties of " ++ nullish_name reason
                    ++ " (reading 'message')")
         else VStr (failure_fallback (kind r))))].
Proof.
  intros Hnumber Hfile Hnet Ht Hmsg.
  rewrite (dispatched_run dirname sock socket r s Hnumber Hfile), Hnet.
  rewrite (await_race_rejected t reason _ _ Ht).
  cbn -[failure_reply]. unfold failure_reply, js_or. rewrite Hmsg.
  now destruct reason.
Qed.

Lemma network_failure_without_message_witness :
  let r := {| kind := Text; data := hola_request; pdf_exists := false;
              net := Rejects 40 (VStr "boom"); timer_first := false |} in
  callbacks (trace (handle_send "/app" (Some 0%nat) "A" r)) =
    [("A", reply_error (VStr "Error al enviar mensaje"))].
Proof.
  intro r.
  apply (network_failure_without_message "/app" 0%nat "A" r "573143604303" 40
           (VStr "boom")); try reflexivity; discriminate.
Defined.

(** X10. A completion that arrives after the deadline changes nothing: the run
    of the request is the run it has when the operation never settles. *)
Theorem late_completion_is_ignored (dirname : string) (g : option nat)
    (socket : client) (r : send_request) :
  overdue (net r) ->
  handle_send dirname g socket r = handle_send dirname g socket (with_net r Pending).
Proof.
  intros Hlate. unfold handle_send, with_net. cbn [kind data pdf_exists net timer_first].
  destruct (kind r); unfold send_message, send_pdf;
    rewrite (await_race_overdue (net r) (timer_first r) _ Hlate); reflexivity.
Qed.

Lemma late_completion_is_ignored_witness :
  let r := {| kind := Text; data := hola_request; pdf_exists := false;
              net := Fulfils 60000; timer_first := false |} in
  handle_send "/app" (Some 0%nat) "A" r =
  handle_send "/app" (Some 0%nat) "A" (with_net r Pending).
Proof.
  intro r. apply (late_completion_is_ignored "/app" (Some 0%nat) "A" r).
  vm_compute. reflexivity.
Defined.

(** X11. A request that is not dispatched leaves no trace but its error reply:
    no keep-alive is emitted for it. *)
Theorem refused_send_only_replies (dirname : string) (g : option nat)
    (socket : client) (r : send_request) :
  dispatched (trace (handle_send dirname g socket r)) = false ->
  exists reply,
    handle_send dirname g socket r = ([Callback socket reply], inl tt) /\
    is_success reply = false.
Proof.
  intros Hquiet.
  destruct (handle_send_runs dirname g socket r) as [reply Hno | sock jid content H | sock jid content e H];
    try discriminate Hquiet.
  exists reply. now split.
Qed.

Lemma refused_send_only_replies_witness :
  let r := {| kind := Text; data := VObj [("number", VNum 573143604303)];
              pdf_exists := false; net := Pending; timer_first := false |} in
  exists reply,
    handle_send "/app" (Some 0%nat) "A" r = ([Callback "A" reply], inl tt) /\
    is_success reply = false.
Proof.
  intro r. apply (refused_send_only_replies "/app" (Some 0%nat) "A" r). reflexivity.
Defined.

(** X12. No send request, however it ends, broadcasts anything, delivers any
    event to another client, or restarts the session. *)
Theorem send_stays_with_its_client (dirname : string) (g : option nat)
    (socket : client) (r : send_request) :
  let t := trace (handle_send dirname g socket r) in
  broadcasts t = [] /\
  reconnects t = 0 /\
  (forall clients c ev, c <> socket -> existsb (delivers clients c ev) t = false) /\
  (forall to reply, In (to, reply) (callbacks t) -> to = socket).
Proof.
  assert (Hother : forall c, c <> socket -> (socket =? c) = false).
  { intros c Hc. apply String.eqb_neq. congruence. }
  destruct (handle_send_runs dirname g socket r) as [reply _ | sock jid content H | sock jid content e H];
    cbn; repeat split; try reflexivity;
    try (intros clients c ev Hc; now rewrite (Hother c Hc));
    intros to reply' [Heq | []]; congruence.
Qed.

Lemma send_stays_with_its_client_witness :
  let r := {| kind := Text; data := hola_request; pdf_exists := false;
              net := Fulfils 10; timer_first := false |} in
  existsb (delivers ["A"; "B"] "B" "keep_alive")
    (trace (handle_send "/app" (Some 0%nat) "A" r)) = false.
Proof.
  intro r.
  apply (proj1 (proj2 (proj2 (send_stays_with_its_client "/app" (Some 0%nat) "A" r)))).
  discriminate.
Defined.

(** ** The socket handle over a history *)

Lemma step_handle (loggedOut : Z) (Date_now : nat -> Z)
    (string_to_number : string -> option Z)
    (object_to_number : list (string * value) -> option Z)
    (g : gateway) (e : event) :
  fst (step loggedOut Date_now string_to_number object_to_number g e) =
    match e with
    | SocketCreated =>
        {| globalSocket := Some (sockets_made g); sockets_made := S (sockets_made g) |}
    | _ => g
    end.
Proof. now destruct e. Qed.

Lemma run_handle (loggedOut : Z) (Date_now : nat -> Z)
    (string_to_number : string -> option Z)
    (object_to_number : list (string * value) -> option Z)
    (history : list event) (g : gateway) :
  let g' := fst (run loggedOut Date_now string_to_number object_to_number g history) in
  sockets_made g' = sockets_made g + sockets_created history /\
  globalSocket g' =
    match sockets_created history with
    | 0 => globalSocket g
    | S k => Some (sockets_made g + k)
    end.
Proof.
  revert g. induction history as [| e rest IH]; intros g.
  - cbn. split; [lia | reflexivity].
  - cbn.
    pose proof (step_handle loggedOut Date_now string_to_number object_to_number g e)
      as Hstep.
    destruct (step loggedOut Date_now string_to_number object_to_number g e)
      as [g1 t1].
    specialize (IH g1).
    destruct (run loggedOut Date_now string_to_number object_to_number g1 rest)
      as [g2 t2].
    cbn in *. subst g1. destruct IH as [IHn IHs].
    unfold sockets_created in *.
    destruct e; cbn in *; try (split; assumption).
    split; [lia |].
    rewrite IHs.
    destruct (length (filter (fun e => match e with SocketCreated => true | _ => false end) rest));
      f_equal; lia.
Qed.

(** X13. The handle always denotes the socket created last: after any history
    of events [globalSocket] is [null] when no socket was created, and
    otherwise the most recent one, whatever opens, closes, messages and
    requests the history contains. *)
Theorem handle_is_latest_socket (loggedOut : Z) (Date_now : nat -> Z)
    (string_to_number : string -> option Z)
    (object_to_number : list (string * value) -> option Z)
    (history : list event) :
  globalSocket
    (fst (run loggedOut Date_now string_to_number object_to_number initial history)) =
    match sockets_created history with
    | 0 => None
    | S k => Some k
    end.
Proof.
  apply (run_handle loggedOut Date_now string_to_number object_to_number history initial).
Qed.

(** X14. As long as no socket has been created every send request is refused
    with the not-connected error and [check_status] reports
    ['disconnected']. *)
Theorem no_socket_no_service (loggedOut : Z) (Date_now : nat -> Z)
    (string_to_number : string -> option Z)
    (object_to_number : list (string * value) -> option Z)
    (history : list event) (dirname : string) (socket : client) (r : send_request) :
  sockets_created history = 0 ->
  let g := fst (run loggedOut Date_now string_to_number object_to_number initial history) in
  handle_send dirname (globalSocket g) socket r =
    ([Callback socket (reply_error (VStr not_connected_msg))], inl tt) /\
  check_status (globalSocket g) socket =
    ([Callback socket (VObj [("connected", VBool false); ("status", VStr "disconnected")])],
     inl tt).
Proof.
  intros Hnone g. subst g.
  rewrite (proj2 (run_handle loggedOut Date_now string_to_number object_to_number
                    history initial)), Hnone.
  split; [apply send_without_handle_is_refused | reflexivity].
Qed.

Lemma no_socket_no_service_witness :
  let r := {| kind := Text; data := hola_request; pdf_exists := true;
              net := Fulfils 10; timer_first := false |} in
  let g := fst (run 401 (fun _ => 0%Z) (fun _ => None) (fun _ => None) initial
                  [Start; CheckStatus "B"]) in
  handle_send "/app" (globalSocket g) "A" r =
    ([Callback "A" (reply_error (VStr not_connected_msg))], inl tt) /\
  check_status (globalSocket g) "A" =
    ([Callback "A" (VObj [("connected", VBool false); ("status", VStr "disconnected")])],
     inl tt).
Proof.
  intro r.
  apply (no_socket_no_service 401 (fun _ => 0%Z) (fun _ => None) (fun _ => None)
           [Start; CheckStatus "B"] "/app" "A" r).
  reflexivity.
Defined.

(** X15. Once a socket has been created [check_status] reports ['connected']
    for ever after, whatever events follow, closes included. *)
Theorem status_stays_connected (loggedOut : Z) (Date_now : nat -> Z)
    (string_to_number : string -> option Z)
    (object_to_number : list (string * value) -> option Z)
    (before after : list event) (socket : client) :
  let g :=
    fst (run loggedOut Date_now string_to_number object_to_number initial
           (before ++ SocketCreated :: after)) in
  check_status (globalSocket g) socket =
    ([Callback socket (VObj [("connected", VBool true); ("status", VStr "connected")])],
     inl tt).
Proof.
  intros g. subst g.
  rewrite (proj2 (run_handle loggedOut Date_now string_to_number object_to_number
                    (before ++ SocketCreated :: after) initial)).
  unfold sockets_created. rewrite filter_app, length_app. cbn.
  now rewrite Nat.add_succ_r.
Qed.

(** ** Every connection update *)

(** The handler on any update that is not [undefined] or [null], as one
    equation. *)
Lemma on_update (loggedOut : Z) (update : value) :
  nullish update = false ->
  on_connection_update loggedOut update =
    let qr := opt_get update "qr" in
    let challenge := if truthy qr then [Broadcast "qr" qr] else [] in
    if strict_eq_str (opt_get update "connection") "close" then
      if nullish (opt_get update "lastDisconnect")
      then (challenge, inr (cannot_read (opt_get update "lastDisconnect") "error"))
      else ((challenge ++
             (if strict_eq_num (close_reason update) loggedOut
              then [] else [ConnectToWhatsApp]) ++
             [Broadcast "connection_status" (VObj [("status", VStr "disconnected")])])%list,
            inl tt)
    else if strict_eq_str (opt_get update "connection") "open" then
      ((challenge ++
        [Broadcast "connection_status" (VObj [("status", VStr "connected")])])%list, inl tt)
    else (challenge, inl tt).
Proof.
  intros Hupdate.
  destruct (strict_eq_str (opt_get update "connection") "close") eqn:Hclose.
  - rewrite (on_close loggedOut update Hclose). reflexivity.
  - unfold on_connection_update, destructure. rewrite Hupdate. cbn.
    rewrite Hclose.
    destruct (truthy (opt_get update "qr"));
      destruct (strict_eq_str (opt_get update "connection") "open"); reflexivity.
Qed.

(** X16. The handler ends in an exception in two cases only: the update itself
    is [undefined] or [null], or it is a close without its
    [lastDisconnect] record. *)
Theorem connection_update_throws_only (loggedOut : Z) (update : value) :
  (exists e, outcome (on_connection_update loggedOut update) = inr e) <->
  nullish update = true \/
  (strict_eq_str (opt_get update "connection") "close" = true /\
   nullish (opt_get update "lastDisconnect") = true).
Proof.
  destruct (nullish update) eqn:Hupdate.
  - split; [intros _; now left |]. intros _.
    destruct update; try discriminate Hupdate; eexists; reflexivity.
  - rewrite (on_update loggedOut update Hupdate). cbn zeta.
    destruct (strict_eq_str (opt_get update "connection") "close");
      [destruct (nullish (opt_get update "lastDisconnect")) |
       destruct (strict_eq_str (opt_get update "connection") "open")];
      unfold outcome; cbn [snd]; split;
      try (intros [e H]; discriminate H);
      try (intros [H | [H1 H2]]; discriminate);
      try (intros _; eauto).
Qed.

(** X17. What the clients see of an update: the challenge token, when there is
    one, first and even when the handler then fails; after it
    ['disconnected'] for a close that carries its record, ['connected'] for
    an open, and nothing for any other update. *)
Theorem connection_update_broadcasts (loggedOut : Z) (update : value) :
  nullish update = false ->
  broadcasts (trace (on_connection_update loggedOut update)) =
    ((if truthy (opt_get update "qr") then [("qr", opt_get update "qr")] else []) ++
     (if strict_eq_str (opt_get update "connection") "close" then
        if nullish (opt_get update "lastDisconnect") then []
        else [("connection_status", VObj [("status", VStr "disconnected")])]
      else if strict_eq_str (opt_get update "connection") "open" then
        [("connection_status", VObj [("status", VStr "connected")])]
      else []))%list.
Proof.
  intros Hupdate. rewrite (on_update loggedOut update Hupdate). cbn zeta.
  destruct (truthy (opt_get update "qr"));
    destruct (strict_eq_str (opt_get update "connection") "close");
    destruct (nullish (opt_get update "lastDisconnect"));
    destruct (strict_eq_num (close_reason update) loggedOut);
    destruct (strict_eq_str (opt_get update "connection") "open");
    reflexivity.
Qed.

Lemma connection_update_broadcasts_witness :
  broadcasts (trace (on_connection_update 401
                       (VObj [("qr", VStr "2@token"); ("connection", VStr "close")]))) =
    [("qr", VStr "2@token")].
Proof.
  apply (connection_update_broadcasts 401
           (VObj [("qr", VStr "2@token"); ("connection", VStr "close")])).
  reflexivity.
Defined.

(** X18. The handler restarts the session at most once, and only for a close
    that carries its record and whose reason is not loggedOut: never for
    an open, a challenge or any other update.  It answers no request and
    sends nothing. *)
Theorem only_a_close_reconnects (loggedOut : Z) (update : value) :
  let t := trace (on_connection_update loggedOut update) in
  (reconnects t = 0 \/ reconnects t = 1) /\
  (reconnects t = 1 <->
   strict_eq_str (opt_get update "connection") "close" = true /\
   nullish (opt_get update "lastDisconnect") = false /\
   strict_eq_num (close_reason update) loggedOut = false) /\
  callbacks t = [] /\ dispatches t = [].
Proof.
  destruct (nullish update) eqn:Hupdate.
  - destruct update; try discriminate Hupdate; cbn;
      (split; [now left |]); (split; [| now split]);
      (split; [discriminate | intros (H & _); discriminate H]).
  - cbn zeta. rewrite (on_update loggedOut update Hupdate). cbn zeta.
    destruct (truthy (opt_get update "qr"));
      destruct (strict_eq_str (opt_get update "connection") "close");
      destruct (nullish (opt_get update "lastDisconnect"));
      destruct (strict_eq_num (close_reason update) loggedOut);
      destruct (strict_eq_str (opt_get update "connection") "open");
      cbn; (split; [auto |]); (split; [| now split]);
      (split; [try discriminate; auto | try reflexivity; intros (H1 & H2 & H3); discriminate]).
Qed.

(** X19. An open completes, announces ['connected'] as the last status and does
    not restart the session, with or without a [lastDisconnect] record. *)
Theorem open_announces_connected (loggedOut : Z) (update : value) :
  strict_eq_str (opt_get update "connection") "open" = true ->
  let m := on_connection_update loggedOut update in
  outcome m = inl tt /\
  last_status VUndefined (trace m) = VStr "connected" /\
  reconnects (trace m) = 0.
Proof.
  intros Hopen m. subst m.
  assert (Hupdate : nullish update = false) by (now destruct update).
  assert (Hclose : strict_eq_str (opt_get update "connection") "close" = false).
  { unfold strict_eq_str in *. destruct (opt_get update "connection"); try reflexivity.
    apply String.eqb_eq in Hopen. now subst. }
  rewrite (on_update loggedOut update Hupdate). cbn zeta. rewrite Hclose, Hopen.
  unfold outcome, trace. cbn [fst snd].
  rewrite last_status_challenge, reconnects_challenge. now repeat split.
Qed.

Lemma open_announces_connected_witness :
  last_status VUndefined (trace (on_connection_update 401 open_update)) = VStr "connected".
Proof.
  apply (open_announces_connected 401 open_update). reflexivity.
Defined.

(** ** Batches of inbound messages *)

Section Inbound.

Variable Date_now : nat -> Z.
Variable string_to_number : string -> option Z.
Variable object_to_number : list (string * value) -> option Z.

Local Set Warnings "-notation-for-abbreviation".
Local Notation on_message' := (on_message Date_now string_to_number object_to_number).
Local Notation for_each' := (for_each Date_now string_to_number object_to_number).
Local Notation timestamp_of' := (timestamp_of Date_now string_to_number object_to_number).










Lemma for_each_cons (i : nat) (message : value) (rest : list value) :
  for_each' i (message :: rest) =
    match outcome (on_message' i message) with
    | inl _ =>
        ((trace (on_message' i message) ++ trace (for_each' (S i) rest))%list,
         outcome (for_each' (S i) rest))
    | inr e => (trace (on_message' i message), inr e)
    end.
Proof.
  cbn [for_each]. unfold bind, trace, outcome.
  destruct (on_message' i message) as [t [[] | e]]; [| reflexivity].
  now destruct (for_each' (S i) rest).
Qed.

Lemma trace_pair {A} (t : list effect) (o : A + value) : trace (t, o) = t.
Proof. reflexivity. Qed.





Lemma bind_ret {A B} (a : A) (k : A -> M B) : bind (ret a) k = k a.
Proof. unfold bind, ret. now destruct (k a). Qed.


(** The loop body performs at most one effect, the broadcast of a
    [new_message]. *)
Lemma on_message_trace (i : nat) (message : value) :
  trace (on_message' i message) = [] \/
  exists payload, trace (on_message' i message) = [Broadcast "new_message" payload].
Proof.
  remember (on_message' i message) as m eqn:Hm.
  destruct (nullish message) eqn:Hmessage.
  { left. destruct message; try discriminate Hmessage; now subst m. }
  assert (Hget : forall k, get_prop message k = ret (opt_get message k)).
  { intros k. unfold get_prop. now rewrite Hmessage. }
  unfold on_message in Hm. rewrite !Hget, bind_ret in Hm.
  destruct (truthy (opt_get message "message")); cbn [negb] in Hm;
    [| left; now subst m].
  rewrite bind_ret in Hm. unfold get_prop at 1 in Hm.
  destruct (nullish (opt_get message "key")) eqn:Hkey; [left; now subst m |].
  rewrite bind_ret in Hm.
  destruct (truthy (opt_get (opt_get message "key") "fromMe")); [left; now subst m |].
  unfold get_prop at 1 in Hm. rewrite Hkey, !bind_ret in Hm.
  destruct (truthy (opt_get message "pushName")).
  { rewrite bind_ret in Hm. right. subst m. eexists. reflexivity. }
  destruct (opt_get (opt_get message "key") "remoteJid"); cbn in Hm;
    try (left; now subst m).
  right. subst m. eexists. reflexivity.
Qed.

Lemma on_message_effects (i : nat) (message : value) :
  let t := trace (on_message' i message) in
  callbacks t = [] /\ dispatches t = [] /\ reconnects t = 0 /\
  Forall (fun b => fst b = "new_message") (broadcasts t) /\
  length (broadcasts t) <= 1.
Proof.
  cbn zeta.
  destruct (on_message_trace i message) as [-> | [payload ->]]; cbn;
    repeat split; auto.
Qed.

Lemma for_each_trace (i : nat) (messages : list value) :
  let t := trace (for_each' i messages) in
  callbacks t = [] /\ dispatches t = [] /\ reconnects t = 0 /\
  Forall (fun b => fst b = "new_message") (broadcasts t) /\
  length (broadcasts t) <= length messages.
Proof.
  revert i. induction messages as [| message rest IH]; intros i.
  - cbn. repeat split; [constructor | lia].
  - specialize (IH (S i)). cbn zeta in *.
    destruct IH as (IHc & IHd & IHr & IHb & IHl).
    destruct (on_message_effects i message) as (Hc & Hd & Hr & Hb & Hl).
    rewrite for_each_cons.
    destruct (outcome (on_message' i message)) as [[] | e]; rewrite trace_pair.
    + unfold callbacks, dispatches, broadcasts, reconnects in *.
      rewrite !flat_map_app, filter_app, !length_app.
      rewrite Hc, Hd, Hr, IHc, IHd, IHr.
      repeat split; [apply Forall_app; now split | cbn [length]; lia].
    + repeat split; auto. cbn [length]. lia.
Qed.

(** X25. A [messages.upsert] batch, however its messages look and however the
    handler ends, answers no request, sends nothing, does not restart the
    session, and broadcasts only [new_message] events, at most one for each
    message of the batch. *)
Theorem upsert_only_broadcasts_messages (messages : list value) :
  let t := trace (on_messages_upsert Date_now string_to_number object_to_number messages) in
  callbacks t = [] /\ dispatches t = [] /\ reconnects t = 0 /\
  Forall (fun b => fst b = "new_message") (broadcasts t) /\
  length (broadcasts t) <= length messages.
Proof. exact (for_each_trace 0 messages). Qed.

End Inbound.





(** The two places where the runtime's conventions show: [Object.keys]
    lists array indices first, and the product with 1000 is a double. *)
Lemma first_key_lists_indices_first : first_key indexed_payload = VStr "2".
Proof. reflexivity. Qed.

Lemma timestamp_rounds_as_double :
  times_1000 (to_number (fun _ => None) (fun _ => None) (VNum 9007199254740991)) =
    Finite 9007199254740990976 /\
  times_1000 (to_number (fun _ => None) (fun _ => None) (VNum (10 ^ 306))) =
    Infinite false.
Proof. split; vm_compute; reflexivity. Qed.
